(** * AliEmcalIterableContainerT: the filtered, bidirectional view over an
    EMCAL container

  Shallow embedding of [PWG/EMCAL/EMCALbase/AliEmcalIterableContainer.h]:
  the view ([AliEmcalIterableContainerT<T>]), its index builder
  ([BuildAcceptIndices]) and its nested bidirectional [iterator].

  Conventions of the embedding:
  - a C++ [int] is a [Z] inside [[INT_MIN, INT_MAX]]; increments and
    decrements are written with their two's complement wrap-around
    ([wrap_int]);
  - a pointer is an [option]: [None] is [NULL];
  - dereferencing [NULL] is the outcome [Fault] of the [result] monad;
  - the abstract base class [AliEmcalContainer] is a record of the four
    members the adapter calls;
  - ROOT's [TArrayI] (an external class, included through <TArrayI.h>) is
    a list of [Z] together with the bounds-checked accessors the adapter
    uses;
  - a view is not modified once constructed and a container is not modified
    at all, so an iterator carries its view and a view its container by
    value. *)

From stdpp Require Import base option list list_numbers sorting.
From Stdlib Require Import ZArith Lia.

Local Open Scope Z_scope.

(** ** Machine integers *)

Definition INT_MAX : Z := 2147483647.
Definition INT_MIN : Z := -2147483648.

Definition int_range (z : Z) : Prop := INT_MIN ≤ z ≤ INT_MAX.

(** Reduction of an arithmetic result to a 32-bit signed [int]. *)
Definition wrap_int (z : Z) : Z :=
(z + 2147483648) `mod` 4294967296 - 2147483648.

(** ** Outcomes of fallible code *)

Inductive result (A : Type) : Type :=
| Ok (a : A)
| Fault.
Arguments Ok {A} a.
Arguments Fault {A}.

#[global] Instance result_ret : MRet result := λ A a, Ok a.
#[global] Instance result_bind : MBind result := λ A B f m,
match m with
| Ok a => f a
| Fault => Fault
end.

(** [for (int index = ...; ...; index++) body], over the indices the loop
  runs through, with the loop state threaded and a fault ending the loop. *)
Fixpoint for_each {S : Type} (body : Z → S → result S) (indices : list Z)
  (st : S) : result S :=
match indices with
| [] => Ok st
| index :: rest => st' ← body index st; for_each body rest st'
end.

(** ** ROOT's integer array *)

Module TArrayI.

(** [fN] elements stored in [fArray]; [fArray] is the null pointer exactly
    when [fN] is 0. *)
Record t : Type := mk { fArray : list Z }.

Definition fN (a : t) : Z := Z.of_nat (length (fArray a)).

(** One [::Error] report of an index outside the array: the index and the
    size of the array. *)
Record OutOfBoundsError : Type := Report { oob_index : Z; oob_size : Z }.

(** [TArrayI()] *)
Definition new : t := mk [].

(** [GetSize()] *)
Definition GetSize (a : t) : Z := fN a.

(** [Set(n)]: nothing for a negative [n]; otherwise the array gets [n]
    elements, the old ones kept and the new ones zeroed. *)
Definition Set_ (a : t) (n : Z) : t :=
  if n <? 0 then a else mk (resize (Z.to_nat n) 0 (fArray a)).

(** [BoundsOk(where, at)] *)
Definition BoundsOk (a : t) (i : Z) : bool :=
  negb ((i <? 0) || (fN a <=? i)).

(** [a[i] = v] through the non-const [operator[]]: an index out of bounds is
    reported and replaced by 0, and the store through [fArray] faults when
    the array is empty. *)
Definition assign (a : t) (i v : Z) (log : list OutOfBoundsError)
    : result (t * list OutOfBoundsError) :=
  if BoundsOk a i then Ok (mk (<[Z.to_nat i := v]> (fArray a)), log)
  else
    match fArray a with
    | [] => Fault
    | _ :: _ => Ok (mk (<[0%nat := v]> (fArray a)), log ++ [Report i (fN a)])
    end.

(** [a[i]] through the const [operator[]]: 0 for an index out of bounds.
    The adapter reads only after its own bounds check, so the report of
    the const accessor is never issued and is left out. *)
Definition at_ (a : t) (i : Z) : Z :=
  if BoundsOk a i then default 0 (fArray a !! Z.to_nat i) else 0.

End TArrayI.

(** ** The adapter *)

Section Adapter.

(** The element type [T] of the template. *)
Context {T : Type}.

(** The members of [AliEmcalContainer] the adapter calls. [AcceptObject]
    takes the index and the incoming value of the [rejectionReason]
    reference and gives the verdict and the outgoing value;
    [operator_subscript_cont] is [operator[]]. *)
Record AliEmcalContainer : Type := MkContainer {
  GetNEntries : Z;
  GetNAcceptEntries : Z;
  AcceptObject : Z → Z → bool * Z;
  operator_subscript_cont : Z → option T
}.

Record AliEmcalIterableContainerT : Type := MkView {
  fkContainer : option AliEmcalContainer;
  fAcceptIndices : TArrayI.t;
  fUseAccepted : bool
}.

Record iterator : Type := MkIterator {
  fkData : option AliEmcalIterableContainerT;
  fCurrent : Z;
  fForward : bool
}.

(** State of the loop of [BuildAcceptIndices]: the array, [acceptCounter]
    and the reports issued so far. *)
Definition build_state : Type :=
  (TArrayI.t * Z * list TArrayI.OutOfBoundsError)%type.

(** Body of the loop of [BuildAcceptIndices]:
    [UInt_t rejectionReason = 0;
     if (AcceptObject(index, rejectionReason))
       fAcceptIndices[acceptCounter++] = index;] *)
Definition BuildAcceptIndices_body (c : AliEmcalContainer) (index : Z)
    (st : build_state) : result build_state :=
  let '(a, acceptCounter, log) := st in
  let rejectionReason := 0 in
  if (AcceptObject c index rejectionReason).1 then
    '(a', log') ← TArrayI.assign a acceptCounter index log;
    Ok (a', wrap_int (acceptCounter + 1), log')
  else Ok st.

(** [BuildAcceptIndices()], on the view [this]; the result is the view
    afterwards with the reports of the array. The loop runs [index] through
    0, 1, ..., [GetNEntries() - 1]; [index++] stays below [GetNEntries()],
    an [int], and so never wraps. *)
Definition BuildAcceptIndices (this : AliEmcalIterableContainerT)
    : result (AliEmcalIterableContainerT * list TArrayI.OutOfBoundsError) :=
  match fkContainer this with
  | None => Fault
  | Some c =>
      let a0 := TArrayI.Set_ (fAcceptIndices this) (GetNAcceptEntries c) in
      '(a, _, log) ← for_each (BuildAcceptIndices_body c)
                        (seqZ 0 (GetNEntries c)) (a0, 0, []);
      Ok (MkView (fkContainer this) a (fUseAccepted this), log)
  end.

(** Default (I/O) constructor. *)
Definition ctor_default : AliEmcalIterableContainerT :=
  MkView None TArrayI.new false.

(** Standard constructor [(cont, useAccept)]. *)
Definition ctor (cont : option AliEmcalContainer) (useAccept : bool)
    : result (AliEmcalIterableContainerT * list TArrayI.OutOfBoundsError) :=
  let this := MkView cont TArrayI.new useAccept in
  if fUseAccepted this then BuildAcceptIndices this else Ok (this, []).

(** Copy constructor. *)
Definition ctor_copy (ref : AliEmcalIterableContainerT)
    : AliEmcalIterableContainerT :=
  MkView (fkContainer ref) (fAcceptIndices ref) (fUseAccepted ref).

Definition GetEntries (this : AliEmcalIterableContainerT) : result Z :=
  if fUseAccepted this then Ok (TArrayI.GetSize (fAcceptIndices this))
  else
    match fkContainer this with
    | None => Fault
    | Some c => Ok (GetNEntries c)
    end.

(** [GetContainer()] *)
Definition GetContainer (this : AliEmcalIterableContainerT)
    : option AliEmcalContainer :=
  fkContainer this.

(** [operator[](index)] of the view. *)
Definition operator_subscript (this : AliEmcalIterableContainerT)
    (index : Z) : result (option T) :=
  if index <? 0 then Ok None
  else
    n ← GetEntries this;
    if n <=? index then Ok None
    else
      match fkContainer this with
      | None => Fault
      | Some contref =>
          Ok (if fUseAccepted this
              then operator_subscript_cont contref
                     (TArrayI.at_ (fAcceptIndices this) index)
              else operator_subscript_cont contref index)
      end.

Definition begin_ (this : AliEmcalIterableContainerT) : iterator :=
  MkIterator (Some this) 0 true.

Definition end_ (this : AliEmcalIterableContainerT) : result iterator :=
  n ← GetEntries this; Ok (MkIterator (Some this) n true).

Definition rbegin (this : AliEmcalIterableContainerT) : result iterator :=
  n ← GetEntries this; Ok (MkIterator (Some this) (wrap_int (n - 1)) false).

Definition rend (this : AliEmcalIterableContainerT) : iterator :=
  MkIterator (Some this) (-1) false.

(** [operator!=] *)
Definition operator_neq (this ref : iterator) : bool :=
  negb (fCurrent this =? fCurrent ref).

(** Prefix [operator++]: the iterator after the step. *)
Definition operator_inc (this : iterator) : iterator :=
  if fForward this
  then MkIterator (fkData this) (wrap_int (fCurrent this + 1)) (fForward this)
  else MkIterator (fkData this) (wrap_int (fCurrent this - 1)) (fForward this).

(** Prefix [operator--]. *)
Definition operator_dec (this : iterator) : iterator :=
  if fForward this
  then MkIterator (fkData this) (wrap_int (fCurrent this - 1)) (fForward this)
  else MkIterator (fkData this) (wrap_int (fCurrent this + 1)) (fForward this).

(** Postfix [operator++(int)]: the returned copy [tmp] and the iterator
    after the step. *)
Definition operator_inc_post (this : iterator) : iterator * iterator :=
  let tmp := MkIterator (fkData this) (fCurrent this) (fForward this) in
  (tmp, operator_inc this).

(** Postfix [operator--(int)]. *)
Definition operator_dec_post (this : iterator) : iterator * iterator :=
  let tmp := MkIterator (fkData this) (fCurrent this) (fForward this) in
  (tmp, operator_dec this).

(** [operator*] *)
Definition operator_deref (this : iterator) : result (option T) :=
  match fkData this with
  | None => Fault
  | Some data => operator_subscript data (fCurrent this)
  end.

(** The iteration of the class documentation,
    [for (iter = first; iter != last; ++iter) { ... *iter ... }],
    collecting the objects it meets. [None] when the fuel does not
    suffice. *)
Fixpoint iterate (fuel : nat) (iter last : iterator)
    : option (result (list (option T))) :=
  match fuel with
  | O => None
  | S fuel' =>
      if operator_neq iter last then
        match operator_deref iter with
        | Fault => Some Fault
        | Ok obj =>
            match iterate fuel' (operator_inc iter) last with
            | Some (Ok objs) => Some (Ok (obj :: objs))
            | other => other
            end
        end
      else Some (Ok [])
  end.

(** [for (iter = v.begin(); iter != v.end(); ++iter)] *)
Definition iterate_forward (fuel : nat) (v : AliEmcalIterableContainerT)
    : option (result (list (option T))) :=
  match end_ v with
  | Fault => Some Fault
  | Ok last => iterate fuel (begin_ v) last
  end.

(** [for (iter = v.rbegin(); iter != v.rend(); ++iter)] *)
Definition iterate_backward (fuel : nat) (v : AliEmcalIterableContainerT)
    : option (result (list (option T))) :=
  match rbegin v with
  | Fault => Some Fault
  | Ok first => iterate fuel first (rend v)
  end.

End Adapter.

Arguments AliEmcalContainer T : clear implicits.
Arguments AliEmcalIterableContainerT T : clear implicits.
Arguments iterator T : clear implicits.

(** ** Notions the statements are written with *)

Section Notions.

Context {T : Type}.
Implicit Types (c : AliEmcalContainer T) (v : AliEmcalIterableContainerT T).

(** The verdict of [AcceptObject] as the builder asks for it. *)
Definition accepted c (p : Z) : bool := (AcceptObject c p 0).1.

(** The positions of [[0, GetNEntries)] the container accepts, in increasing
    order, and their number. *)
Definition accepted_positions c : list Z :=
  filter (λ p, accepted c p = true) (seqZ 0 (GetNEntries c)).

Definition NAccepted c : Z := Z.of_nat (length (accepted_positions c)).

(** What the member functions of a container return fits their type [int]. *)
Definition container_ok c : Prop :=
  int_range (GetNEntries c) ∧ int_range (GetNAcceptEntries c).

(** A view bound to a container, with [n] entries. *)
Definition view_ok v (n : Z) : Prop :=
  is_Some (fkContainer v) ∧ GetEntries v = Ok n ∧ 0 ≤ n ≤ INT_MAX.

(** The object [v[i]], [NULL] also where the access faults. *)
Definition object_at v (i : Z) : option T :=
  match operator_subscript v i with
  | Ok obj => obj
  | Fault => None
  end.

(** What a construction leaves in [fAcceptIndices], with its reports. *)
Definition built_indices
    (r : result (AliEmcalIterableContainerT T * list TArrayI.OutOfBoundsError))
    : result (list Z * list TArrayI.OutOfBoundsError) :=
  '(v, log) ← r; Ok (TArrayI.fArray (fAcceptIndices v), log).

End Notions.

(** ** Concrete containers *)

(** Five objects [100 .. 104], of which those at 1, 3 and 4 are accepted;
    [hint] is what [GetNAcceptEntries] reports. *)
Definition accept_1_3_4 (index rejectionReason : Z) : bool * Z :=
  ((index =? 1) || (index =? 3) || (index =? 4), rejectionReason).

Definition five (hint : Z) : AliEmcalContainer Z :=
  MkContainer 5 hint accept_1_3_4 (λ i, Some (100 + i)).

(** Two objects, none accepted, three reported as accepted. *)
Definition two_rejected : AliEmcalContainer Z :=
  MkContainer 2 3 (λ _ r, (false, r)) (λ i, Some (100 + i)).

(** Two objects, both accepted, one reported as accepted. *)
Definition two_accepted : AliEmcalContainer Z :=
  MkContainer 2 1 (λ _ r, (true, r)) (λ i, Some (100 + i)).

(** Two objects, the second accepted, two reported as accepted. *)
Definition second_of_two : AliEmcalContainer Z :=
  MkContainer 2 2 (λ i r, (i =? 1, r)) (λ i, Some (100 + i)).

(** As [five 3] for the positions 0 to 4, with other objects, another
    rejection reason and position 7 accepted besides. *)
Definition five_other : AliEmcalContainer bool :=
  MkContainer 5 3
    (λ i _, ((i =? 1) || (i =? 3) || (i =? 4) || (i =? 7), 1))
    (λ _, None).

(** No object at all. *)
Definition no_object : AliEmcalContainer Z :=
  MkContainer 0 0 (λ _ r, (false, r)) (λ _, None).

(** The accepted and the complete view of [five 3]. *)
Definition five_accepted : AliEmcalIterableContainerT Z :=
  MkView (Some (five 3)) (TArrayI.mk [1; 3; 4]) true.

Definition five_all : AliEmcalIterableContainerT Z :=
  MkView (Some (five 3)) TArrayI.new false.

Section Properties.

Context {T : Type}.
Implicit Types (c : AliEmcalContainer T) (v : AliEmcalIterableContainerT T).
Implicit Types (it : iterator T).

(** ** Machine integers *)

Lemma wrap_int_id z : int_range z → wrap_int z = z.
Proof.
  unfold int_range, INT_MIN, INT_MAX, wrap_int. intros Hz.
  rewrite Z.mod_small; lia.
Qed.


Lemma wrap_int_succ_pred z :
  int_range z → wrap_int (wrap_int (z + 1) - 1) = z.
Proof.
  unfold int_range, INT_MIN, INT_MAX, wrap_int. intros Hz.
  destruct (decide (z = 2147483647)) as [->|Hne]; [reflexivity|].
  rewrite (Z.mod_small (z + 1 + _)) by lia. rewrite Z.mod_small; lia.
Qed.

Lemma wrap_int_pred_succ z :
  int_range z → wrap_int (wrap_int (z - 1) + 1) = z.
Proof.
  unfold int_range, INT_MIN, INT_MAX, wrap_int. intros Hz.
  destruct (decide (z = -2147483648)) as [->|Hne]; [reflexivity|].
  rewrite (Z.mod_small (z - 1 + _)) by lia. rewrite Z.mod_small; lia.
Qed.

(** ** The array *)

Lemma TArrayI_Set_size a n : 0 ≤ n → TArrayI.GetSize (TArrayI.Set_ a n) = n.
Proof.
  intros Hn. unfold TArrayI.Set_, TArrayI.GetSize, TArrayI.fN.
  destruct (Z.ltb_spec n 0); [lia|]. simpl. rewrite length_resize. lia.
Qed.

Lemma TArrayI_Set_new n :
  TArrayI.Set_ TArrayI.new n = TArrayI.mk (replicate (Z.to_nat n) 0).
Proof.
  unfold TArrayI.Set_, TArrayI.new. destruct (Z.ltb_spec n 0); simpl.
  - replace (Z.to_nat n) with 0%nat by lia. reflexivity.
  - by rewrite resize_nil.
Qed.

Lemma TArrayI_assign_length a i x log a' log' :
  TArrayI.assign a i x log = Ok (a', log') →
  length (TArrayI.fArray a') = length (TArrayI.fArray a).
Proof.
  unfold TArrayI.assign. destruct (TArrayI.BoundsOk a i).
  - intros [= <- _]. simpl. apply length_insert.
  - destruct (TArrayI.fArray a) eqn:E; [discriminate|].
    intros [= <- _]. reflexivity.
Qed.

(** A store at an index inside the array goes to that index and reports
    nothing. *)
Lemma TArrayI_assign_inside (l : list Z) i x log :
  0 ≤ i < Z.of_nat (length l) →
  TArrayI.assign (TArrayI.mk l) i x log
  = Ok (TArrayI.mk (<[Z.to_nat i := x]> l), log).
Proof.
  intros Hi. unfold TArrayI.assign, TArrayI.BoundsOk, TArrayI.fN. simpl.
  destruct (Z.ltb_spec i 0); [lia|].
  destruct (Z.leb_spec (Z.of_nat (length l)) i); [lia|]. reflexivity.
Qed.

(** ** The loop of [BuildAcceptIndices] *)

Lemma for_each_app {S} (body : Z → S → result S) l1 l2 st :
  for_each body (l1 ++ l2) st
  = (st' ← for_each body l1 st; for_each body l2 st').
Proof.
  revert st. induction l1 as [|i l1 IH]; intros st; simpl; [reflexivity|].
  destruct (body i st) as [st'|]; simpl; [apply IH|reflexivity].
Qed.

(** The loop never changes the size of the array. *)
Lemma BuildAcceptIndices_loop_size c l a k log a' k' log' :
  for_each (BuildAcceptIndices_body c) l (a, k, log) = Ok (a', k', log') →
  TArrayI.GetSize a' = TArrayI.GetSize a.
Proof.
  revert a k log. induction l as [|i l IH]; intros a k log; simpl.
  - by intros [= -> _ _].
  - destruct (AcceptObject c i 0).1; simpl; [|apply IH].
    destruct (TArrayI.assign a k i log) as [[a1 log1]|] eqn:E; simpl;
      [|discriminate].
    intros H. rewrite (IH _ _ _ H). unfold TArrayI.GetSize, TArrayI.fN.
    by rewrite (TArrayI_assign_length _ _ _ _ _ _ E).
Qed.

(** With room for every accepted index of [l], the loop appends the accepted
    indices of [l] to the part of the array already filled, counts them and
    reports nothing. *)
Lemma BuildAcceptIndices_loop_room c l (pre : list Z) (m : nat) log :
  let acc := filter (λ p, accepted c p = true) l in
  (length acc ≤ m)%nat →
  Z.of_nat (length pre + length acc) ≤ INT_MAX →
  for_each (BuildAcceptIndices_body c) l
    (TArrayI.mk (pre ++ replicate m 0), Z.of_nat (length pre), log)
  = Ok (TArrayI.mk (pre ++ acc ++ replicate (m - length acc) 0),
        Z.of_nat (length pre + length acc), log).
Proof.
  revert pre m. induction l as [|i l IH]; intros pre m; simpl.
  - intros _ _. by rewrite Nat.sub_0_r, Nat.add_0_r.
  - rewrite filter_cons. fold (accepted c i).
    destruct (decide (accepted c i = true)) as [Hi|Hi].
    + rewrite Hi. simpl. intros Hm Hmax.
      destruct m as [|m]; [lia|].
      rewrite TArrayI_assign_inside
        by (rewrite length_app, length_replicate; lia).
      simpl. rewrite Nat2Z.id, insert_app_r_alt by lia.
      rewrite Nat.sub_diag. simpl.
      rewrite wrap_int_id by (unfold int_range, INT_MIN; lia).
      replace (Z.of_nat (length pre) + 1) with (Z.of_nat (length (pre ++ [i])))
        by (rewrite length_app; simpl; lia).
      rewrite (cons_middle i pre), app_assoc.
      rewrite IH by (rewrite ?length_app; simpl; lia).
      rewrite length_app. simpl. rewrite <- !app_assoc. simpl.
      do 3 f_equal. lia.
    + apply not_true_is_false in Hi. rewrite Hi. simpl. apply IH.
Qed.

(** ** Construction *)

Lemma NAccepted_bounds c :
  container_ok c →
  0 ≤ NAccepted c ≤ INT_MAX ∧ NAccepted c ≤ Z.max 0 (GetNEntries c).
Proof.
  intros [[_ HN] _]. unfold NAccepted, accepted_positions.
  pose proof (length_filter (λ p, accepted c p = true)
                (seqZ 0 (GetNEntries c))) as Hle.
  rewrite length_seqZ in Hle. unfold INT_MAX in *. lia.
Qed.

Lemma ctor_all cont :
  ctor (T:=T) cont false = Ok (MkView cont TArrayI.new false, []).
Proof. reflexivity. Qed.

(** The size of the array of an accepted view is the reported number of
    accepted objects, whatever the loop stored. *)
Lemma ctor_accepted_size c v log :
  ctor (Some c) true = Ok (v, log) →
  fUseAccepted v = true ∧ fkContainer v = Some c ∧
  TArrayI.GetSize (fAcceptIndices v) = Z.max 0 (GetNAcceptEntries c).
Proof.
  unfold ctor, BuildAcceptIndices. simpl.
  destruct (for_each _ _ _) as [[[a k] log1]|] eqn:E; simpl; [|discriminate].
  intros [= <- _]. simpl. split; [done|]. split; [done|].
  rewrite (BuildAcceptIndices_loop_size _ _ _ _ _ _ _ _ E), TArrayI_Set_new.
  unfold TArrayI.GetSize, TArrayI.fN. simpl. rewrite length_replicate. lia.
Qed.

(** With at least as many accepted objects reported as there are, the
    construction stores the accepted positions in order, leaves the rest of
    the array zero and reports nothing. *)
Lemma ctor_accepted_room c :
  container_ok c → NAccepted c ≤ GetNAcceptEntries c →
  ctor (Some c) true
  = Ok (MkView (Some c)
          (TArrayI.mk
             (accepted_positions c ++
              replicate (Z.to_nat (GetNAcceptEntries c)
                         - length (accepted_positions c)) 0))
          true, []).
Proof.
  intros Hc Hroom. pose proof (NAccepted_bounds c Hc) as [HA _].
  unfold NAccepted in *.
  unfold ctor, BuildAcceptIndices. simpl. rewrite TArrayI_Set_new.
  pose proof (BuildAcceptIndices_loop_room c (seqZ 0 (GetNEntries c)) []
                (Z.to_nat (GetNAcceptEntries c)) []) as Hloop.
  simpl in Hloop. change (Z.of_nat 0) with 0 in Hloop.
  fold (accepted_positions c) in Hloop.
  rewrite Hloop by (unfold INT_MAX in *; lia). reflexivity.
Qed.

(** ** Order of the accepted positions *)

Lemma StronglySorted_seqZ m n : StronglySorted Z.lt (seqZ m n).
Proof.
  destruct (Z.le_gt_cases n 0) as [Hn|Hn];
    [rewrite seqZ_nil by lia; constructor|].
  rewrite <- (Z2Nat.id n) by lia. generalize (Z.to_nat n) as k. clear.
  intros k. revert m. induction k as [|k IH]; intros m.
  - rewrite seqZ_nil by lia. constructor.
  - rewrite seqZ_cons by lia. constructor.
    + replace (Z.pred (Z.of_nat (S k))) with (Z.of_nat k) by lia. apply IH.
    + apply Forall_seqZ. intros; lia.
Qed.

Lemma StronglySorted_filter {A} (R : A → A → Prop) (P : A → Prop)
    `{!∀ x, Decision (P x)} (l : list A) :
  StronglySorted R l → StronglySorted R (filter P l).
Proof.
  induction 1 as [|x l Hl IH Hx]; [constructor|].
  rewrite filter_cons. destruct (decide (P x)); [|done].
  constructor; [done|].
  apply Forall_forall. intros y [_ Hy]%list_elem_of_filter.
  rewrite Forall_forall in Hx. auto.
Qed.

Lemma accepted_positions_sorted c : StronglySorted Z.lt (accepted_positions c).
Proof. apply StronglySorted_filter, StronglySorted_seqZ. Qed.

Lemma elem_of_accepted_positions c p :
  p ∈ accepted_positions c ↔ 0 ≤ p < GetNEntries c ∧ accepted c p = true.
Proof.
  unfold accepted_positions. rewrite list_elem_of_filter, elem_of_seqZ.
  intuition lia.
Qed.

(** ** Number of entries of a view *)

(** C1, amended. A view constructed over a container [c] in ALL mode has
    [GetNEntries c] entries. A view constructed in ACCEPTED_ONLY mode has as
    many entries as [c] reports from [GetNAcceptEntries] (none for a negative
    report); that is the number of accepted positions of
    [[0, GetNEntries c)] when the report is that number, and the
    construction then completes without a report. *)
Theorem GetEntries_of_ctor c :
  container_ok c →
  (∃ v, ctor (Some c) false = Ok (v, []) ∧
        GetEntries v = Ok (GetNEntries c)) ∧
  (∀ v log, ctor (Some c) true = Ok (v, log) →
            GetEntries v = Ok (Z.max 0 (GetNAcceptEntries c))) ∧
  (GetNAcceptEntries c = NAccepted c →
   ∃ v, ctor (Some c) true = Ok (v, []) ∧ GetEntries v = Ok (NAccepted c)).
Proof.
  intros Hc. split; [|split].
  - eexists. split; [apply ctor_all|reflexivity].
  - intros v log (Hacc & _ & Hsize)%ctor_accepted_size.
    unfold GetEntries. by rewrite Hacc, Hsize.
  - intros Hrep. eexists. split; [apply ctor_accepted_room; [done|lia]|].
    unfold GetEntries, TArrayI.GetSize, TArrayI.fN. simpl. f_equal.
    rewrite length_app, length_replicate. unfold NAccepted in *. lia.
Qed.

(** ** Storage of the builder *)

Lemma TArrayI_assign_log a i x log a' log' :
  TArrayI.assign a i x log = Ok (a', log') →
  ∃ more, log' = log ++ more ∧ (more = [] → TArrayI.BoundsOk a i = true).
Proof.
  unfold TArrayI.assign. destruct (TArrayI.BoundsOk a i).
  - intros [= _ <-]. exists []. by rewrite app_nil_r.
  - destruct (TArrayI.fArray a); [discriminate|].
    intros [= _ <-]. eexists. split; [reflexivity|discriminate].
Qed.

(** Reports are only ever added. *)
Lemma BuildAcceptIndices_loop_log c l a k log a' k' log' :
  for_each (BuildAcceptIndices_body c) l (a, k, log) = Ok (a', k', log') →
  ∃ more, log' = log ++ more.
Proof.
  revert a k log. induction l as [|i l IH]; intros a k log; simpl.
  - intros [= _ _ <-]. exists []. by rewrite app_nil_r.
  - destruct (AcceptObject c i 0).1; simpl; [|apply IH].
    destruct (TArrayI.assign a k i log) as [[a1 log1]|] eqn:E; simpl;
      [|discriminate].
    intros [more2 ->]%IH.
    apply TArrayI_assign_log in E as (more1 & -> & _).
    exists (more1 ++ more2). by rewrite app_assoc.
Qed.

(** A loop that completes without a new report has counted every accepted
    index of [l] and found room for each of them. *)
Lemma BuildAcceptIndices_loop_quiet c l a k log a' k' :
  for_each (BuildAcceptIndices_body c) l (a, k, log) = Ok (a', k', log) →
  0 ≤ k ≤ TArrayI.GetSize a →
  k + Z.of_nat (length (filter (λ p, accepted c p = true) l)) ≤ INT_MAX →
  k + Z.of_nat (length (filter (λ p, accepted c p = true) l))
  ≤ TArrayI.GetSize a.
Proof.
  revert a k. induction l as [|i l IH]; intros a k; simpl.
  - intros _ Hk _. lia.
  - rewrite filter_cons. fold (accepted c i).
    destruct (decide (accepted c i = true)) as [Hi|Hi].
    + rewrite Hi. simpl.
      destruct (TArrayI.assign a k i log) as [[a1 log1]|] eqn:E; simpl;
        [|discriminate].
      intros Hloop Hk Hmax.
      pose proof (BuildAcceptIndices_loop_log _ _ _ _ _ _ _ _ Hloop)
        as [more2 Hmore2].
      pose proof (TArrayI_assign_length _ _ _ _ _ _ E) as Hlen.
      apply TArrayI_assign_log in E as (more1 & -> & Hin).
      rewrite <- app_assoc in Hmore2.
      rewrite <- (app_nil_r log) in Hmore2 at 1.
      apply app_inv_head in Hmore2. symmetry in Hmore2.
      apply app_eq_nil in Hmore2 as [-> ->]. rewrite app_nil_r in Hloop.
      rewrite wrap_int_id in Hloop
        by (unfold int_range, INT_MIN, INT_MAX in *; lia).
      specialize (Hin eq_refl). unfold TArrayI.BoundsOk in Hin.
      destruct (Z.ltb_spec k 0); [lia|].
      destruct (Z.leb_spec (TArrayI.fN a) k); [discriminate|].
      unfold TArrayI.GetSize, TArrayI.fN in *.
      apply IH in Hloop; [|rewrite Hlen; lia|lia].
      rewrite Hlen in Hloop. lia.
    + apply not_true_is_false in Hi. rewrite Hi. simpl. apply IH.
Qed.

(** A construction without fault and without report had room for every
    accepted position. *)
Lemma ctor_accepted_quiet c v :
  container_ok c → ctor (Some c) true = Ok (v, []) →
  NAccepted c ≤ TArrayI.GetSize (fAcceptIndices v).
Proof.
  intros Hc Hctor. pose proof (NAccepted_bounds c Hc) as [HA _].
  pose proof (ctor_accepted_size c v [] Hctor) as (_ & _ & Hsize).
  revert Hctor. unfold ctor, BuildAcceptIndices. simpl.
  destruct (for_each _ _ _) as [[[a k] log]|] eqn:E; simpl; [|discriminate].
  intros [= <- ->]. simpl in Hsize.
  rewrite TArrayI_Set_new in *. unfold TArrayI.GetSize, TArrayI.fN in *.
  apply BuildAcceptIndices_loop_quiet in E;
    [|unfold TArrayI.GetSize, TArrayI.fN; simpl; lia|exact (proj2 HA)].
  unfold TArrayI.GetSize, TArrayI.fN in E. simpl in E.
  rewrite length_replicate in E.
  simpl. unfold NAccepted, accepted_positions. lia.
Qed.

(** C2, amended. When the container reports at least as many accepted
    objects as [[0, GetNEntries c)] has accepted positions, the builder stays
    inside its storage: the construction completes without a fault and
    without a report, the array has the reported size, which is at least the
    number of accepted positions, and the j-th accepted position is stored
    at index j, inside the array. *)
Theorem BuildAcceptIndices_within_storage c :
  container_ok c → NAccepted c ≤ GetNAcceptEntries c →
  ∃ v, ctor (Some c) true = Ok (v, []) ∧
       TArrayI.GetSize (fAcceptIndices v) = GetNAcceptEntries c ∧
       NAccepted c ≤ TArrayI.GetSize (fAcceptIndices v) ∧
       ∀ (j : nat) (p : Z), accepted_positions c !! j = Some p →
         TArrayI.BoundsOk (fAcceptIndices v) (Z.of_nat j) = true ∧
         TArrayI.fArray (fAcceptIndices v) !! j = Some p.
Proof.
  intros Hc Hroom. pose proof (NAccepted_bounds c Hc) as [HA _].
  eexists. split; [by apply ctor_accepted_room|]. simpl.
  assert (TArrayI.GetSize
            (TArrayI.mk
               (accepted_positions c ++
                replicate (Z.to_nat (GetNAcceptEntries c)
                           - length (accepted_positions c)) 0))
          = GetNAcceptEntries c) as Hsize.
  { unfold TArrayI.GetSize, TArrayI.fN. simpl.
    rewrite length_app, length_replicate. unfold NAccepted in *. lia. }
  rewrite Hsize. split; [done|]. split; [done|].
  intros j p Hj. pose proof (lookup_lt_Some _ _ _ Hj) as Hlt. split.
  - unfold TArrayI.BoundsOk. fold (TArrayI.GetSize (TArrayI.mk
      (accepted_positions c ++
       replicate (Z.to_nat (GetNAcceptEntries c)
                  - length (accepted_positions c)) 0))).
    rewrite Hsize. unfold NAccepted in *.
    destruct (Z.ltb_spec (Z.of_nat j) 0); [lia|].
    destruct (Z.leb_spec (GetNAcceptEntries c) (Z.of_nat j)); [lia|done].
  - by rewrite lookup_app_l.
Qed.

(** ** The index array of an accepted view *)

(** C3, amended. When the container reports exactly the number of accepted
    positions of [[0, GetNEntries c)], the construction in ACCEPTED_ONLY
    mode completes and the stored indices are strictly increasing, a
    subsequence of [[0, GetNEntries c)], exactly the positions the container
    accepts, and no more than the reported number. *)
Theorem fAcceptIndices_invariant c :
  container_ok c → GetNAcceptEntries c = NAccepted c →
  ∃ v, ctor (Some c) true = Ok (v, []) ∧
       let indices := TArrayI.fArray (fAcceptIndices v) in
       StronglySorted Z.lt indices ∧
       indices `sublist_of` seqZ 0 (GetNEntries c) ∧
       (∀ p, p ∈ indices ↔ 0 ≤ p < GetNEntries c ∧ accepted c p = true) ∧
       Z.of_nat (length indices) ≤ GetNAcceptEntries c.
Proof.
  intros Hc Hrep. eexists. split; [apply ctor_accepted_room; [done|lia]|].
  simpl. unfold NAccepted in Hrep.
  replace (Z.to_nat (GetNAcceptEntries c) - length (accepted_positions c))%nat
    with 0%nat by lia.
  simpl. rewrite app_nil_r. split; [apply accepted_positions_sorted|].
  split; [apply sublist_filter|].
  split; [apply elem_of_accepted_positions|lia].
Qed.

(** ** Access by index *)

Lemma operator_subscript_inside v c n i :
  fkContainer v = Some c → GetEntries v = Ok n → 0 ≤ i < n →
  operator_subscript v i
  = Ok (if fUseAccepted v
        then operator_subscript_cont c (TArrayI.at_ (fAcceptIndices v) i)
        else operator_subscript_cont c i).
Proof.
  intros Hc Hn Hi. unfold operator_subscript. rewrite Hn, Hc. simpl.
  destruct (Z.ltb_spec i 0); [lia|].
  destruct (Z.leb_spec n i); [lia|done].
Qed.

Lemma operator_subscript_object_at v n i :
  view_ok v n → 0 ≤ i < n → operator_subscript v i = Ok (object_at v i).
Proof.
  intros ([c Hc] & Hn & _) Hi. unfold object_at.
  by rewrite (operator_subscript_inside v c n i).
Qed.

(** C4. For a view bound to a container [c] and an index [i] inside
    [[0, GetEntries)], [operator[]] gives [c[i]] in ALL mode and
    [c[fAcceptIndices[i]]] in ACCEPTED_ONLY mode. *)
Theorem operator_subscript_in_bounds v c n i :
  fkContainer v = Some c → GetEntries v = Ok n → 0 ≤ i < n →
  (fUseAccepted v = false →
   operator_subscript v i = Ok (operator_subscript_cont c i)) ∧
  (fUseAccepted v = true →
   ∃ k, TArrayI.fArray (fAcceptIndices v) !! Z.to_nat i = Some k ∧
        operator_subscript v i = Ok (operator_subscript_cont c k)).
Proof.
  intros Hc Hn Hi. unfold operator_subscript. rewrite Hn, Hc. simpl.
  destruct (Z.ltb_spec i 0); [lia|].
  destruct (Z.leb_spec n i); [lia|].
  split; intros Hmode; rewrite Hmode; [done|].
  unfold GetEntries in Hn. rewrite Hmode in Hn. injection Hn as Hn.
  unfold TArrayI.GetSize, TArrayI.fN in Hn.
  destruct (lookup_lt_is_Some_2 (TArrayI.fArray (fAcceptIndices v))
              (Z.to_nat i)) as [k Hk]; [lia|].
  exists k. split; [done|].
  unfold TArrayI.at_, TArrayI.BoundsOk, TArrayI.fN. rewrite Hk.
  destruct (Z.ltb_spec i 0); [lia|].
  destruct (Z.leb_spec
              (Z.of_nat (length (TArrayI.fArray (fAcceptIndices v)))) i);
    [lia|done].
Qed.

(** C5. For an index [i] below 0, or not below the number [n] of entries of
    the view, [operator[]] gives [NULL] and so does [operator*] of an
    iterator of the view at [i], whatever its direction; neither faults. *)
Theorem operator_subscript_out_of_bounds v n i :
  i < 0 ∨ (GetEntries v = Ok n ∧ n ≤ i) →
  operator_subscript v i = Ok None ∧
  ∀ forward, operator_deref (MkIterator (Some v) i forward) = Ok None.
Proof.
  intros Hi.
  assert (operator_subscript v i = Ok None) as Hsub.
  { unfold operator_subscript. destruct (Z.ltb_spec i 0); [done|].
    destruct Hi as [Hi|[Hn Hi]]; [lia|]. rewrite Hn. simpl.
    destruct (Z.leb_spec n i); [done|lia]. }
  split; [done|]. intros forward. exact Hsub.
Qed.

(** ** Iteration *)

Lemma iterate_forward_from v n (d : nat) k fuel :
  view_ok v n → 0 ≤ k → k + Z.of_nat d = n → (d < fuel)%nat →
  iterate fuel (MkIterator (Some v) k true) (MkIterator (Some v) n true)
  = Some (Ok (object_at v <$> seqZ k (Z.of_nat d))).
Proof.
  intros Hv. revert k fuel.
  induction d as [|d IH]; intros k fuel Hk Hkn Hfuel;
    (destruct fuel as [|fuel]; [lia|]); simpl; unfold operator_neq; simpl.
  - replace k with n by lia. by rewrite Z.eqb_refl.
  - destruct (Z.eqb_spec k n); [lia|]. simpl.
    unfold operator_deref. simpl.
    rewrite (operator_subscript_object_at v n k) by (done || lia).
    unfold operator_inc. simpl.
    destruct Hv as (Hc & Hn & Hrange).
    rewrite wrap_int_id by (unfold int_range, INT_MIN, INT_MAX in *; lia).
    rewrite IH by lia. rewrite (seqZ_cons k) by lia.
    replace (Z.pred (Z.of_nat (S d))) with (Z.of_nat d) by lia.
    by replace (Z.succ k) with (k + 1) by lia.
Qed.

Lemma iterate_backward_from v n (d : nat) fuel :
  view_ok v n → Z.of_nat d ≤ n → (d < fuel)%nat →
  iterate fuel (MkIterator (Some v) (Z.of_nat d - 1) false)
    (MkIterator (Some v) (-1) false)
  = Some (Ok (reverse (object_at v <$> seqZ 0 (Z.of_nat d)))).
Proof.
  intros Hv. revert fuel.
  induction d as [|d IH]; intros fuel Hd Hfuel;
    (destruct fuel as [|fuel]; [lia|]); simpl; unfold operator_neq; simpl.
  - done.
  - destruct (Z.eqb_spec (Z.of_nat (S d) - 1) (-1)); [lia|]. simpl.
    unfold operator_deref. simpl.
    rewrite (operator_subscript_object_at v n) by (done || lia).
    unfold operator_inc. simpl.
    destruct Hv as (Hc & Hn & Hrange).
    rewrite wrap_int_id by (unfold int_range, INT_MIN, INT_MAX in *; lia).
    replace (Z.of_nat (S d) - 1 - 1) with (Z.of_nat d - 1) by lia.
    rewrite IH by lia.
    rewrite seqZ_S, fmap_app, reverse_app. simpl.
    by replace (Z.of_nat (S d) - 1) with (0 + Z.of_nat d) by lia.
Qed.

(** C6. For a view with [n] entries bound to a container, the loop from
    [begin()] to [end()] ends and meets exactly the [n] objects [v[0]],
    [v[1]], ..., [v[n-1]] in this order, and the loop from [rbegin()] to
    [rend()] ends and meets the same objects in the reverse order. *)
Theorem iterate_full_traversal v n :
  view_ok v n →
  ∃ objs,
    Forall2 (λ i obj, operator_subscript v i = Ok obj) (seqZ 0 n) objs ∧
    Z.of_nat (length objs) = n ∧
    ∀ fuel, (Z.to_nat n < fuel)%nat →
      iterate_forward fuel v = Some (Ok objs) ∧
      iterate_backward fuel v = Some (Ok (reverse objs)).
Proof.
  intros Hv. pose proof Hv as (Hc & Hn & Hrange).
  exists (object_at v <$> seqZ 0 n). split; [|split].
  - apply Forall2_fmap_r, Forall_Forall2_diag, Forall_seqZ.
    intros i Hi. apply (operator_subscript_object_at v n); [done|lia].
  - rewrite length_fmap, length_seqZ. lia.
  - intros fuel Hfuel. unfold iterate_forward, iterate_backward, begin_,
      end_, rbegin, rend. rewrite Hn. simpl.
    rewrite wrap_int_id by (unfold int_range, INT_MIN, INT_MAX in *; lia).
    pose proof (iterate_forward_from v n (Z.to_nat n) 0 fuel Hv) as Hfwd.
    pose proof (iterate_backward_from v n (Z.to_nat n) fuel Hv) as Hbwd.
    rewrite Z2Nat.id in Hfwd, Hbwd by lia.
    split; [apply Hfwd; lia|apply Hbwd; lia].
Qed.

(** ** Steps of an iterator *)

(** C7. For an iterator at a position of type [int], [operator++] followed
    by [operator--] and [operator--] followed by [operator++] give the
    iterator back, in both directions, and the postfix operators return the
    iterator as it was. Where the step does not leave the type [int],
    [operator++] adds 1 to the position of a forward iterator and subtracts
    1 from that of a backward one, and [operator--] does the opposite. *)
Theorem operator_inc_dec it :
  int_range (fCurrent it) →
  operator_dec (operator_inc it) = it ∧
  operator_inc (operator_dec it) = it ∧
  operator_inc_post it = (it, operator_inc it) ∧
  operator_dec_post it = (it, operator_dec it) ∧
  (fForward it = true → fCurrent it < INT_MAX →
   fCurrent (operator_inc it) = fCurrent it + 1) ∧
  (fForward it = false → INT_MIN < fCurrent it →
   fCurrent (operator_inc it) = fCurrent it - 1) ∧
  (fForward it = true → INT_MIN < fCurrent it →
   fCurrent (operator_dec it) = fCurrent it - 1) ∧
  (fForward it = false → fCurrent it < INT_MAX →
   fCurrent (operator_dec it) = fCurrent it + 1).
Proof.
  destruct it as [data pos fwd]. simpl. intros Hpos.
  unfold operator_inc_post, operator_dec_post, operator_inc, operator_dec.
  simpl. repeat split.
  - destruct fwd; simpl; f_equal;
      [by apply wrap_int_succ_pred|by apply wrap_int_pred_succ].
  - destruct fwd; simpl; f_equal;
      [by apply wrap_int_pred_succ|by apply wrap_int_succ_pred].
  - intros -> Hlt. simpl. apply wrap_int_id.
    unfold int_range, INT_MIN, INT_MAX in *. lia.
  - intros -> Hlt. simpl. apply wrap_int_id.
    unfold int_range, INT_MIN, INT_MAX in *. lia.
  - intros -> Hlt. simpl. apply wrap_int_id.
    unfold int_range, INT_MIN, INT_MAX in *. lia.
  - intros -> Hlt. simpl. apply wrap_int_id.
    unfold int_range, INT_MIN, INT_MAX in *. lia.
Qed.

(** ** Comparison of iterators *)

(** C8. Whatever the views and the directions of two iterators,
    [operator!=] holds exactly when their positions differ, and fails
    exactly when the positions are equal. *)
Theorem operator_neq_position
    (data1 data2 : option (AliEmcalIterableContainerT T))
    (pos1 pos2 : Z) (forward1 forward2 : bool) :
  (operator_neq (MkIterator data1 pos1 forward1)
     (MkIterator data2 pos2 forward2) = true ↔ pos1 ≠ pos2) ∧
  (operator_neq (MkIterator data1 pos1 forward1)
     (MkIterator data2 pos2 forward2) = false ↔ pos1 = pos2).
Proof.
  unfold operator_neq. simpl.
  destruct (Z.eqb_spec pos1 pos2); simpl; intuition congruence.
Qed.

(** ** The empty view *)

(** C10. For a view without entries, [rbegin()] and [rend()] are both at
    position -1 and [operator!=] does not tell them apart, as with
    [begin()] and [end()]; the loop from [rbegin()] to [rend()] ends at once
    and meets no object. *)
Theorem rbegin_rend_empty v :
  GetEntries v = Ok 0 →
  (∃ first, rbegin v = Ok first ∧ fCurrent first = -1 ∧
            fCurrent (rend v) = -1 ∧ operator_neq first (rend v) = false) ∧
  (∃ last, end_ v = Ok last ∧ operator_neq (begin_ v) last = false) ∧
  ∀ fuel, iterate_backward (S fuel) v = Some (Ok []).
Proof.
  intros Hn. unfold rbegin, end_, iterate_backward, rbegin. rewrite Hn. simpl.
  split; [|split].
  - eexists. split; [reflexivity|]. by vm_compute.
  - eexists. split; [reflexivity|]. by vm_compute.
  - intros fuel. reflexivity.
Qed.

End Properties.

(** ** Construction depends on the counts and the verdicts only *)

Lemma BuildAcceptIndices_loop_ext {T1 T2} (c1 : AliEmcalContainer T1)
    (c2 : AliEmcalContainer T2) (l : list Z) (st : build_state) :
  Forall (λ p, accepted c1 p = accepted c2 p) l →
  for_each (BuildAcceptIndices_body c1) l st
  = for_each (BuildAcceptIndices_body c2) l st.
Proof.
  intros Hl. revert st. induction Hl as [|p l Hp _ IH]; intros st; [done|].
  destruct st as [[a k] log]. simpl. fold (accepted c1 p) (accepted c2 p).
  rewrite Hp. destruct (accepted c2 p); simpl; [|apply IH].
  destruct (TArrayI.assign a k p log) as [[a' log']|]; simpl; [apply IH|done].
Qed.

(** C9. Two constructions in the same mode over containers that report the
    same [GetNEntries] and the same [GetNAcceptEntries] and give the same
    verdict at every position of [[0, GetNEntries)] end alike: both fault,
    or both complete with the same index array and the same reports. The
    objects, the rejection reasons and the verdicts at other positions do
    not matter; two constructions over one unchanged container are the case
    of equal containers. *)
Theorem ctor_deterministic {T1 T2} (c1 : AliEmcalContainer T1)
    (c2 : AliEmcalContainer T2) (useAccept : bool) :
  GetNEntries c1 = GetNEntries c2 →
  GetNAcceptEntries c1 = GetNAcceptEntries c2 →
  (∀ p, 0 ≤ p < GetNEntries c1 → accepted c1 p = accepted c2 p) →
  built_indices (ctor (Some c1) useAccept)
  = built_indices (ctor (Some c2) useAccept).
Proof.
  intros HN HA Hacc. destruct useAccept; [|reflexivity].
  unfold ctor, BuildAcceptIndices. simpl. rewrite <- HN, <- HA.
  rewrite (BuildAcceptIndices_loop_ext c1 c2)
    by (apply Forall_seqZ; intros p Hp; apply Hacc; lia).
  destruct (for_each _ _ _) as [[[a k] log]|]; reflexivity.
Qed.

(** ** The theorems at concrete containers *)

Lemma GetEntries_of_ctor_witness :
  container_ok (five 3) ∧
  (∃ v, ctor (Some (five 3)) false = Ok (v, []) ∧ GetEntries v = Ok 5) ∧
  GetEntries five_accepted = Ok 3 ∧
  (∃ v, ctor (Some (five 3)) true = Ok (v, []) ∧ GetEntries v = Ok 3).
Proof.
  assert (container_ok (five 3)) as Hok
    by (unfold container_ok, int_range, INT_MIN, INT_MAX; simpl; lia).
  destruct (GetEntries_of_ctor (five 3) Hok) as (Hall & Hrep & Hacc).
  split; [exact Hok|]. split; [exact Hall|]. split.
  - apply (Hrep five_accepted []). reflexivity.
  - apply Hacc. reflexivity.
Defined.

(** C1 as stated fails: no position of [two_rejected] is accepted, three are
    reported, and the accepted view has three entries. *)
Lemma GetEntries_follows_report :
  ctor (Some two_rejected) true
  = Ok (MkView (Some two_rejected) (TArrayI.mk [0; 0; 0]) true, []) ∧
  GetEntries (MkView (Some two_rejected) (TArrayI.mk [0; 0; 0]) true) = Ok 3 ∧
  NAccepted two_rejected = 0.
Proof. repeat split. Qed.

Lemma BuildAcceptIndices_within_storage_witness :
  container_ok (five 5) ∧
  NAccepted (five 5) ≤ GetNAcceptEntries (five 5) ∧
  ∃ v, ctor (Some (five 5)) true = Ok (v, []) ∧
       TArrayI.GetSize (fAcceptIndices v) = 5 ∧
       3 ≤ TArrayI.GetSize (fAcceptIndices v) ∧
       ∀ (j : nat) (p : Z), [1; 3; 4] !! j = Some p →
         TArrayI.BoundsOk (fAcceptIndices v) (Z.of_nat j) = true ∧
         TArrayI.fArray (fAcceptIndices v) !! j = Some p.
Proof.
  assert (container_ok (five 5)) as Hok
    by (unfold container_ok, int_range, INT_MIN, INT_MAX; simpl; lia).
  assert (NAccepted (five 5) ≤ GetNAcceptEntries (five 5)) as Hroom
    by (vm_compute; discriminate).
  split; [exact Hok|]. split; [exact Hroom|].
  exact (BuildAcceptIndices_within_storage (five 5) Hok Hroom).
Defined.

(** C2 as stated fails: both positions of [two_accepted] are accepted and
    one is reported; the array has one element, and the store of position 1
    at index 1 is outside it and reported. *)
Lemma BuildAcceptIndices_outside_storage :
  NAccepted two_accepted = 2 ∧ GetNAcceptEntries two_accepted = 1 ∧
  ctor (Some two_accepted) true
  = Ok (MkView (Some two_accepted) (TArrayI.mk [1]) true,
        [TArrayI.Report 1 1]) ∧
  TArrayI.GetSize (TArrayI.mk [1]) = 1 ∧
  TArrayI.BoundsOk (TArrayI.mk [0]) 1 = false.
Proof. repeat split. Qed.

Lemma fAcceptIndices_invariant_witness :
  container_ok (five 3) ∧ GetNAcceptEntries (five 3) = NAccepted (five 3) ∧
  ∃ v, ctor (Some (five 3)) true = Ok (v, []) ∧
       let indices := TArrayI.fArray (fAcceptIndices v) in
       StronglySorted Z.lt indices ∧
       indices `sublist_of` seqZ 0 5 ∧
       (∀ p, p ∈ indices ↔ 0 ≤ p < 5 ∧ accepted (five 3) p = true) ∧
       Z.of_nat (length indices) ≤ 3.
Proof.
  assert (container_ok (five 3)) as Hok
    by (unfold container_ok, int_range, INT_MIN, INT_MAX; simpl; lia).
  split; [exact Hok|]. split; [reflexivity|].
  exact (fAcceptIndices_invariant (five 3) Hok eq_refl).
Defined.

(** C3 as stated fails: position 1 of [second_of_two] is the only accepted
    one and two are reported; the stored indices are 1 and 0, which do not
    increase, and position 0 is not accepted. *)
Lemma fAcceptIndices_trailing_zero :
  ctor (Some second_of_two) true
  = Ok (MkView (Some second_of_two) (TArrayI.mk [1; 0]) true, []) ∧
  ¬ StronglySorted Z.lt [1; 0] ∧
  0 ∈ [1; 0] ∧ accepted second_of_two 0 = false.
Proof.
  split; [reflexivity|]. split; [|split; [repeat constructor|reflexivity]].
  intros Hsorted. apply StronglySorted_cons in Hsorted as [Hlt _].
  apply Forall_cons in Hlt as [Hlt _]. lia.
Qed.

Lemma operator_subscript_in_bounds_witness :
  operator_subscript five_all 2 = Ok (Some 102) ∧
  ∃ k, [1; 3; 4] !! 2%nat = Some k ∧
       operator_subscript five_accepted 2
       = Ok (operator_subscript_cont (five 3) k).
Proof.
  split.
  - apply (operator_subscript_in_bounds five_all (five 3) 5 2);
      [reflexivity|reflexivity|lia|reflexivity].
  - apply (operator_subscript_in_bounds five_accepted (five 3) 3 2);
      [reflexivity|reflexivity|lia|reflexivity].
Defined.

Lemma operator_subscript_out_of_bounds_witness :
  (operator_subscript five_accepted 3 = Ok None ∧
   ∀ forward,
     operator_deref (MkIterator (Some five_accepted) 3 forward) = Ok None) ∧
  (operator_subscript five_all (-1) = Ok None ∧
   ∀ forward,
     operator_deref (MkIterator (Some five_all) (-1) forward) = Ok None).
Proof.
  split.
  - apply (operator_subscript_out_of_bounds five_accepted 3 3).
    right. split; [reflexivity|lia].
  - apply (operator_subscript_out_of_bounds five_all 5 (-1)).
    left. lia.
Defined.

Lemma iterate_full_traversal_witness :
  view_ok five_accepted 3 ∧
  ∃ objs,
    Forall2 (λ i obj, operator_subscript five_accepted i = Ok obj)
      (seqZ 0 3) objs ∧
    Z.of_nat (length objs) = 3 ∧
    iterate_forward 4 five_accepted = Some (Ok objs) ∧
    iterate_backward 4 five_accepted = Some (Ok (reverse objs)).
Proof.
  assert (view_ok five_accepted 3) as Hok.
  { split; [by eexists|]. split; [reflexivity|]. unfold INT_MAX. lia. }
  split; [exact Hok|].
  destruct (iterate_full_traversal five_accepted 3 Hok)
    as (objs & Hobjs & Hlen & Hloops).
  exists objs. split; [exact Hobjs|]. split; [exact Hlen|].
  apply Hloops. simpl. lia.
Defined.

Lemma operator_inc_dec_witness :
  let it := MkIterator (Some five_accepted) 0 true in
  let back := MkIterator (Some five_accepted) 2 false in
  int_range 0 ∧
  operator_dec (operator_inc it) = it ∧
  operator_inc (operator_dec it) = it ∧
  fCurrent (operator_inc it) = 1 ∧ fCurrent (operator_dec it) = -1 ∧
  fCurrent (operator_inc back) = 1 ∧ fCurrent (operator_dec back) = 3.
Proof.
  intros it back.
  assert (int_range 0) as H0 by (unfold int_range, INT_MIN, INT_MAX; lia).
  assert (int_range 2) as H2 by (unfold int_range, INT_MIN, INT_MAX; lia).
  destruct (operator_inc_dec it H0) as (Hid & Hdi & _ & _ & Hfi & _ & Hfd & _).
  destruct (operator_inc_dec back H2) as (_ & _ & _ & _ & _ & Hbi & _ & Hbd).
  split; [exact H0|]. split; [exact Hid|]. split; [exact Hdi|].
  split; [apply Hfi; [reflexivity|unfold INT_MAX; simpl; lia]|].
  split; [apply Hfd; [reflexivity|unfold INT_MIN; simpl; lia]|].
  split; [apply Hbi; [reflexivity|unfold INT_MIN; simpl; lia]|].
  apply Hbd; [reflexivity|unfold INT_MAX; simpl; lia].
Defined.

Lemma ctor_deterministic_witness :
  built_indices (ctor (Some (five 3)) true)
  = built_indices (ctor (Some five_other) true).
Proof.
  apply ctor_deterministic; [reflexivity|reflexivity|].
  intros p Hp. simpl in Hp.
  assert (p = 0 ∨ p = 1 ∨ p = 2 ∨ p = 3 ∨ p = 4) as Hcases by lia.
  destruct Hcases as [->|[->|[->|[->| ->]]]]; reflexivity.
Defined.

Lemma rbegin_rend_empty_witness :
  let v := MkView (Some no_object) TArrayI.new true in
  GetEntries v = Ok 0 ∧
  (∃ first, rbegin v = Ok first ∧ fCurrent first = -1 ∧
            fCurrent (rend v) = -1 ∧ operator_neq first (rend v) = false) ∧
  (∃ last, end_ v = Ok last ∧ operator_neq (begin_ v) last = false) ∧
  ∀ fuel, iterate_backward (S fuel) v = Some (Ok []).
Proof.
  intros v. split; [reflexivity|].
  exact (rbegin_rend_empty v eq_refl).
Defined.

(** * Further properties of the adapter *)

Section Traversals.

Context {T : Type}.
Implicit Types (c : AliEmcalContainer T) (v : AliEmcalIterableContainerT T).
Implicit Types (it : iterator T).

(** ** What an accepted view reads *)

Lemma TArrayI_at_lookup (l : list Z) (i : nat) (k : Z) :
  l !! i = Some k → TArrayI.at_ (TArrayI.mk l) (Z.of_nat i) = k.
Proof.
  intros Hk. pose proof (lookup_lt_Some _ _ _ Hk) as Hlt.
  unfold TArrayI.at_, TArrayI.BoundsOk, TArrayI.fN. simpl.
  destruct (Z.ltb_spec (Z.of_nat i) 0); [lia|].
  destruct (Z.leb_spec (Z.of_nat (length l)) (Z.of_nat i)); [lia|].
  simpl. by rewrite Nat2Z.id, Hk.
Qed.

Lemma TArrayI_at_seqZ (l : list Z) :
  TArrayI.at_ (TArrayI.mk l) <$> seqZ 0 (Z.of_nat (length l)) = l.
Proof.
  apply list_eq. intros i. rewrite list_lookup_fmap.
  destruct (l !! i) as [k|] eqn:Hk.
  - pose proof (lookup_lt_Some _ _ _ Hk) as Hlt.
    rewrite lookup_seqZ_lt by lia. simpl. f_equal.
    by apply TArrayI_at_lookup.
  - apply lookup_ge_None in Hk. by rewrite lookup_seqZ_ge by lia.
Qed.

(** The objects of a view bound to [c], one logical index after the other:
    those of [c] at the stored indices in ACCEPTED_ONLY mode, those of [c]
    at 0, 1, ... in ALL mode. *)
Lemma object_at_seqZ v c n :
  fkContainer v = Some c → GetEntries v = Ok n →
  object_at v <$> seqZ 0 n
  = operator_subscript_cont c <$>
      (if fUseAccepted v then TArrayI.fArray (fAcceptIndices v)
       else seqZ 0 n).
Proof.
  intros Hc Hn.
  assert (object_at v <$> seqZ 0 n
          = (λ i, if fUseAccepted v
                  then operator_subscript_cont c
                         (TArrayI.at_ (fAcceptIndices v) i)
                  else operator_subscript_cont c i) <$> seqZ 0 n) as ->.
  { apply list_fmap_ext. intros j i [-> Hi]%lookup_seqZ.
    unfold object_at.
    by rewrite (operator_subscript_inside v c n) by (done || lia). }
  destruct (fUseAccepted v) eqn:Hmode; [|done].
  unfold GetEntries in Hn. rewrite Hmode in Hn. injection Hn as <-.
  destruct (fAcceptIndices v) as [l]. unfold TArrayI.GetSize, TArrayI.fN.
  simpl.
  change ((operator_subscript_cont c ∘ TArrayI.at_ (TArrayI.mk l)) <$>
            seqZ 0 (Z.of_nat (length l))
          = operator_subscript_cont c <$> l).
  by rewrite list_fmap_compose, TArrayI_at_seqZ.
Qed.

(** Both loops over a view bound to [c], in terms of [c]. *)
Lemma iterate_view v c n fuel :
  fkContainer v = Some c → GetEntries v = Ok n → 0 ≤ n ≤ INT_MAX →
  (Z.to_nat n < fuel)%nat →
  let objs := operator_subscript_cont c <$>
                (if fUseAccepted v then TArrayI.fArray (fAcceptIndices v)
                 else seqZ 0 n) in
  iterate_forward fuel v = Some (Ok objs) ∧
  iterate_backward fuel v = Some (Ok (reverse objs)).
Proof.
  intros Hc Hn Hrange Hfuel objs.
  assert (view_ok v n) as Hv by (split; [by eexists|done]).
  unfold objs. rewrite <- (object_at_seqZ v c n Hc Hn).
  unfold iterate_forward, iterate_backward, begin_, end_, rbegin, rend.
  rewrite Hn. simpl.
  rewrite wrap_int_id by (unfold int_range, INT_MIN, INT_MAX in *; lia).
  pose proof (iterate_forward_from v n (Z.to_nat n) 0 fuel Hv) as Hfwd.
  pose proof (iterate_backward_from v n (Z.to_nat n) fuel Hv) as Hbwd.
  rewrite Z2Nat.id in Hfwd, Hbwd by lia.
  split; [apply Hfwd; lia|apply Hbwd; lia].
Qed.

(** The accepted view of a container that reports its accepted positions
    exactly. *)
Lemma ctor_accepted_exact c :
  container_ok c → GetNAcceptEntries c = NAccepted c →
  ctor (Some c) true
  = Ok (MkView (Some c) (TArrayI.mk (accepted_positions c)) true, []).
Proof.
  intros Hc Hrep. rewrite ctor_accepted_room by (done || lia).
  unfold NAccepted in Hrep.
  replace (Z.to_nat (GetNAcceptEntries c) - length (accepted_positions c))%nat
    with 0%nat by lia.
  simpl. by rewrite app_nil_r.
Qed.

(** X1. Over a container that reports its accepted positions exactly, the
    loop from [begin()] to [end()] of the accepted view meets the objects at
    the accepted positions, in increasing order of position, and nothing
    else; the loop from [rbegin()] to [rend()] meets them in decreasing
    order. *)
Theorem iterate_accepted_objects c fuel :
  container_ok c → GetNAcceptEntries c = NAccepted c →
  (length (accepted_positions c) < fuel)%nat →
  ∃ v, ctor (Some c) true = Ok (v, []) ∧
       iterate_forward fuel v
       = Some (Ok (operator_subscript_cont c <$> accepted_positions c)) ∧
       iterate_backward fuel v
       = Some (Ok (reverse
                     (operator_subscript_cont c <$> accepted_positions c))).
Proof.
  intros Hc Hrep Hfuel. pose proof (NAccepted_bounds c Hc) as [HA _].
  eexists. split; [by apply ctor_accepted_exact|].
  apply (iterate_view
           (MkView (Some c) (TArrayI.mk (accepted_positions c)) true)
           c (NAccepted c)); [done|done|done|].
  unfold NAccepted. lia.
Qed.

(** X2. The loop from [begin()] to [end()] of the complete view of a
    container with [GetNEntries() >= 0] meets the objects at the positions
    0, 1, ..., [GetNEntries() - 1] in this order, accepted or not; the loop
    from [rbegin()] to [rend()] meets them in the reverse order. *)
Theorem iterate_all_objects c fuel :
  0 ≤ GetNEntries c ≤ INT_MAX → (Z.to_nat (GetNEntries c) < fuel)%nat →
  ∃ v, ctor (Some c) false = Ok (v, []) ∧
       iterate_forward fuel v
       = Some (Ok (operator_subscript_cont c <$> seqZ 0 (GetNEntries c))) ∧
       iterate_backward fuel v
       = Some (Ok (reverse (operator_subscript_cont c <$>
                              seqZ 0 (GetNEntries c)))).
Proof.
  intros HN Hfuel. eexists. split; [apply ctor_all|].
  by apply (iterate_view (MkView (Some c) TArrayI.new false)
              c (GetNEntries c)).
Qed.

(** X3. The objects the accepted view meets are a subsequence of the objects
    the complete view of the same container meets, and the accepted view
    has no more entries than the complete one, when the container reports
    its accepted positions exactly. *)
Theorem accepted_sublist_of_all c fuel :
  container_ok c → 0 ≤ GetNEntries c →
  GetNAcceptEntries c = NAccepted c →
  (Z.to_nat (GetNEntries c) < fuel)%nat →
  ∃ va vall objs_a objs_all na nall,
    ctor (Some c) true = Ok (va, []) ∧ ctor (Some c) false = Ok (vall, []) ∧
    iterate_forward fuel va = Some (Ok objs_a) ∧
    iterate_forward fuel vall = Some (Ok objs_all) ∧
    objs_a `sublist_of` objs_all ∧
    GetEntries va = Ok na ∧ GetEntries vall = Ok nall ∧ na ≤ nall.
Proof.
  intros Hc HN Hrep Hfuel. pose proof Hc as [[_ HNmax] _].
  pose proof (NAccepted_bounds c Hc) as [HA HAN].
  exists (MkView (Some c) (TArrayI.mk (accepted_positions c)) true),
         (MkView (Some c) TArrayI.new false),
         (operator_subscript_cont c <$> accepted_positions c),
         (operator_subscript_cont c <$> seqZ 0 (GetNEntries c)),
         (NAccepted c), (GetNEntries c).
  split; [by apply ctor_accepted_exact|]. split; [apply ctor_all|].
  split.
  { apply (iterate_view
             (MkView (Some c) (TArrayI.mk (accepted_positions c)) true)
             c (NAccepted c)); [done|done|done|].
    unfold NAccepted in *. lia. }
  split.
  { apply (iterate_view (MkView (Some c) TArrayI.new false)
             c (GetNEntries c)); (done || (unfold INT_MAX in *; lia)). }
  split; [apply fmap_sublist, sublist_filter|].
  split; [done|]. split; [done|lia].
Qed.

(** X4. In the accepted view of a container that reports its accepted
    positions exactly, the object at an accepted position [p] has the
    logical index that counts the accepted positions below [p]: rejected
    objects in between are not counted. *)
Theorem operator_subscript_rank c p :
  container_ok c → GetNAcceptEntries c = NAccepted c →
  0 ≤ p < GetNEntries c → accepted c p = true →
  ∃ v, ctor (Some c) true = Ok (v, []) ∧
       operator_subscript v
         (Z.of_nat (length (filter (λ q, accepted c q = true) (seqZ 0 p))))
       = Ok (operator_subscript_cont c p).
Proof.
  intros Hc Hrep Hp Hacc. eexists. split; [by apply ctor_accepted_exact|].
  set (below := filter (λ q, accepted c q = true) (seqZ 0 p)).
  assert (accepted_positions c !! length below = Some p) as Hlookup.
  { unfold accepted_positions.
    replace (GetNEntries c) with (p + (GetNEntries c - p)) by lia.
    rewrite seqZ_app by lia. rewrite filter_app. fold below.
    rewrite (seqZ_cons (0 + p)) by lia.
    rewrite filter_cons_True by (by rewrite Z.add_0_l).
    rewrite Z.add_0_l. by apply list_lookup_middle. }
  pose proof (lookup_lt_Some _ _ _ Hlookup) as Hlt.
  rewrite (operator_subscript_inside _ c (NAccepted c));
    [|done|done|unfold NAccepted; lia].
  simpl. by rewrite (TArrayI_at_lookup _ _ p).
Qed.

(** X5. When the container reports more accepted objects than it accepts,
    the logical indices from the number of accepted positions up to the
    reported number all read the zeroed rest of the array: each gives the
    object at position 0, accepted or not. *)
Theorem operator_subscript_over_report c i :
  container_ok c → NAccepted c ≤ i < GetNAcceptEntries c →
  ∃ v, ctor (Some c) true = Ok (v, []) ∧
       GetEntries v = Ok (GetNAcceptEntries c) ∧
       operator_subscript v i = Ok (operator_subscript_cont c 0).
Proof.
  intros Hc Hi. pose proof (NAccepted_bounds c Hc) as [HA _].
  eexists. split; [apply ctor_accepted_room; [done|lia]|].
  set (l := accepted_positions c ++
            replicate (Z.to_nat (GetNAcceptEntries c)
                       - length (accepted_positions c)) 0).
  assert (Z.of_nat (length l) = GetNAcceptEntries c) as Hlen.
  { unfold l. rewrite length_app, length_replicate.
    unfold NAccepted in *. lia. }
  assert (GetEntries (MkView (Some c) (TArrayI.mk l) true)
          = Ok (GetNAcceptEntries c)) as Hn.
  { unfold GetEntries, TArrayI.GetSize, TArrayI.fN. simpl. by rewrite Hlen. }
  split; [done|].
  rewrite (operator_subscript_inside _ c (GetNAcceptEntries c));
    [|done|done|lia].
  simpl. f_equal. f_equal. rewrite <- (Z2Nat.id i) by lia.
  apply TArrayI_at_lookup. unfold l, NAccepted in *.
  rewrite lookup_app_r by lia. apply lookup_replicate_2. lia.
Qed.

End Traversals.

Section Storage.

Context {T : Type}.
Implicit Types (c : AliEmcalContainer T) (v : AliEmcalIterableContainerT T).

(** ** The builder without room *)

(** A store at an index beyond a non-empty array is reported and goes to
    index 0. *)
Lemma TArrayI_assign_outside (x0 : Z) (arr : list Z) k x log :
  Z.of_nat (length (x0 :: arr)) ≤ k →
  TArrayI.assign (TArrayI.mk (x0 :: arr)) k x log
  = Ok (TArrayI.mk (x :: arr),
        log ++ [TArrayI.Report k (Z.of_nat (length (x0 :: arr)))]).
Proof.
  intros Hk. unfold TArrayI.assign, TArrayI.BoundsOk, TArrayI.fN.
  cbn [TArrayI.fArray].
  destruct (Z.leb_spec (Z.of_nat (length (x0 :: arr))) k); [|lia].
  by rewrite orb_true_r.
Qed.

(** Once the counter has reached the size of a non-empty array, every
    further accepted index is reported and stored at index 0. *)
Lemma BuildAcceptIndices_loop_full c l (arr : list Z) k log :
  let acc := filter (λ p, accepted c p = true) l in
  arr ≠ [] → Z.of_nat (length arr) ≤ k →
  k + Z.of_nat (length acc) ≤ INT_MAX →
  for_each (BuildAcceptIndices_body c) l (TArrayI.mk arr, k, log)
  = Ok (TArrayI.mk (match last acc with
                    | Some x => <[0%nat := x]> arr
                    | None => arr
                    end),
        k + Z.of_nat (length acc),
        log ++ ((λ j, TArrayI.Report j (Z.of_nat (length arr))) <$>
                  seqZ k (Z.of_nat (length acc)))).
Proof.
  revert arr k log. induction l as [|i l IH]; intros arr k log; simpl.
  - intros _ _ _. by rewrite Z.add_0_r, app_nil_r.
  - rewrite filter_cons. fold (accepted c i).
    destruct (decide (accepted c i = true)) as [Hi|Hi].
    + rewrite Hi. simpl. intros Harr Hk Hmax.
      destruct arr as [|x0 arr]; [done|].
      rewrite TArrayI_assign_outside by done. simpl.
      rewrite wrap_int_id by (unfold int_range, INT_MIN, INT_MAX in *; lia).
      rewrite (IH (i :: arr)) by (done || simpl in *; lia).
      rewrite last_cons. simpl.
      rewrite (seqZ_cons k) by lia. rewrite fmap_cons, <- app_assoc. simpl.
      replace (Z.succ k) with (k + 1) by lia.
      replace (Z.pred (Z.of_nat
                 (S (length (filter (λ p, accepted c p = true) l)))))
        with (Z.of_nat (length (filter (λ p, accepted c p = true) l)))
        by lia.
      replace (k + Z.of_nat
                 (S (length (filter (λ p, accepted c p = true) l))))
        with (k + 1 + Z.of_nat
                (length (filter (λ p, accepted c p = true) l))) by lia.
      by destruct (last (filter (λ p, accepted c p = true) l)).
    + apply not_true_is_false in Hi. rewrite Hi. simpl. apply IH.
Qed.

(** In an empty array the first accepted index is stored through the null
    pointer. *)
Lemma BuildAcceptIndices_loop_empty c l p k log :
  p ∈ l → accepted c p = true →
  for_each (BuildAcceptIndices_body c) l (TArrayI.mk [], k, log) = Fault.
Proof.
  intros Hp Hacc. induction l as [|i l IH]; [by apply elem_of_nil in Hp|].
  simpl. fold (accepted c i). destruct (accepted c i) eqn:Hi; simpl.
  - unfold TArrayI.assign, TArrayI.BoundsOk, TArrayI.fN. simpl.
    change (Z.of_nat 0) with 0.
    destruct (Z.ltb_spec k 0), (Z.leb_spec 0 k); simpl; (done || lia).
  - apply elem_of_cons in Hp as [->|Hp]; [congruence|]. by apply IH.
Qed.

Lemma filter_take_drop {A} (P : A → Prop) `{!∀ x, Decision (P x)}
    (l : list A) (m : nat) :
  (m ≤ length (filter P l))%nat →
  ∃ l1 l2, l = l1 ++ l2 ∧ filter P l1 = take m (filter P l) ∧
           filter P l2 = drop m (filter P l).
Proof.
  revert m. induction l as [|x l IH]; intros m.
  - simpl. intros Hm. exists [], []. by destruct m.
  - destruct m as [|m]; [intros _; by exists [], (x :: l)|].
    rewrite filter_cons. destruct (decide (P x)) as [Hx|Hx]; simpl.
    + intros Hm. destruct (IH m) as (l1 & l2 & -> & H1 & H2); [lia|].
      exists (x :: l1), l2. rewrite filter_cons_True by done.
      by rewrite H1, <- H2.
    + intros Hm. destruct (IH (S m)) as (l1 & l2 & -> & H1 & H2); [lia|].
      exists (x :: l1), l2. rewrite filter_cons_False by done.
      by rewrite H1, <- H2.
Qed.

(** X6. When the container reports fewer accepted objects than it accepts,
    but at least one, the construction still completes. The view has the
    reported number of entries; every accepted position beyond that number
    is reported as out of bounds and stored at index 0, so that index 0
    ends with the last accepted position, the first one is lost, and the
    indices 1 and up keep the accepted positions of their rank. *)
Theorem BuildAcceptIndices_under_report c last_p :
  container_ok c → 0 < GetNAcceptEntries c < NAccepted c →
  last (accepted_positions c) = Some last_p →
  ∃ v, ctor (Some c) true
       = Ok (v, (λ j, TArrayI.Report j (GetNAcceptEntries c)) <$>
                  seqZ (GetNAcceptEntries c)
                    (NAccepted c - GetNAcceptEntries c)) ∧
       GetEntries v = Ok (GetNAcceptEntries c) ∧
       TArrayI.fArray (fAcceptIndices v)
       = <[0%nat := last_p]>
           (take (Z.to_nat (GetNAcceptEntries c)) (accepted_positions c)).
Proof.
  intros Hc Hrep Hlast. pose proof (NAccepted_bounds c Hc) as [HA _].
  set (h := Z.to_nat (GetNAcceptEntries c)).
  unfold NAccepted in *. set (acc := accepted_positions c) in *.
  destruct (filter_take_drop (λ p, accepted c p = true)
              (seqZ 0 (GetNEntries c)) h) as (l1 & l2 & Hl & H1 & H2).
  { fold (accepted_positions c). fold acc. lia. }
  fold (accepted_positions c) in H1, H2. fold acc in H1, H2.
  assert (length (take h acc) = h) as Hlen1 by (rewrite length_take; lia).
  assert (length (drop h acc) = (length acc - h)%nat) as Hlen2
    by apply length_drop.
  assert (last (drop h acc) = Some last_p) as Hlast2.
  { rewrite <- (take_drop h acc), last_app in Hlast.
    destruct (last (drop h acc)) eqn:E; [done|].
    apply last_None in E. rewrite E in Hlen2. simpl in Hlen2. lia. }
  unfold ctor, BuildAcceptIndices. simpl. rewrite TArrayI_Set_new. fold h.
  rewrite Hl, for_each_app.
  pose proof (BuildAcceptIndices_loop_room c l1 [] h []) as Hroom.
  simpl in Hroom. change (Z.of_nat 0) with 0 in Hroom.
  rewrite Hroom by (rewrite H1, Hlen1; unfold INT_MAX in *; lia).
  clear Hroom. rewrite H1, Hlen1, Nat.sub_diag. simpl. rewrite app_nil_r.
  pose proof (BuildAcceptIndices_loop_full c l2 (take h acc)
                (Z.of_nat h) []) as Hfull.
  simpl in Hfull. rewrite H2, Hlast2, Hlen1, Hlen2 in Hfull.
  rewrite Hfull; [|intros E; rewrite E in Hlen1; simpl in Hlen1; lia|lia
                  |unfold INT_MAX in *; lia].
  clear Hfull. simpl.
  exists (MkView (Some c) (TArrayI.mk (<[0%nat := last_p]> (take h acc)))
            true).
  split; [|split; [|reflexivity]].
  - f_equal. f_equal. unfold h. rewrite Z2Nat.id by lia.
    do 2 f_equal. lia.
  - unfold GetEntries, TArrayI.GetSize, TArrayI.fN. simpl.
    rewrite length_insert, Hlen1. f_equal. lia.
Qed.

(** X7. When the container reports no accepted object (or a negative
    number) and accepts one, the array is empty and the construction of
    the accepted view faults at the first accepted position. *)
Theorem ctor_faults_without_storage c p :
  GetNAcceptEntries c ≤ 0 → 0 ≤ p < GetNEntries c → accepted c p = true →
  ctor (Some c) true = Fault.
Proof.
  intros Hrep Hp Hacc. unfold ctor, BuildAcceptIndices. simpl.
  rewrite TArrayI_Set_new.
  replace (Z.to_nat (GetNAcceptEntries c)) with 0%nat by lia. simpl.
  rewrite (BuildAcceptIndices_loop_empty c _ p); [done| |done].
  apply elem_of_seqZ. lia.
Qed.

(** X8. A construction that completes leaves a view of the container and of
    the mode it was given. In ALL mode it never fails, builds no index array
    and reports nothing; in ACCEPTED_ONLY mode it completes only for a
    container that is not [NULL]. *)
Theorem ctor_keeps_arguments (cont : option (AliEmcalContainer T))
    (useAccept : bool) :
  (useAccept = false → ctor cont useAccept
                       = Ok (MkView cont TArrayI.new false, [])) ∧
  ∀ v log, ctor cont useAccept = Ok (v, log) →
    GetContainer v = cont ∧ fUseAccepted v = useAccept ∧
    (useAccept = true → is_Some cont).
Proof.
  split; [by intros ->|]. intros v log. destruct useAccept.
  - unfold ctor, BuildAcceptIndices. simpl.
    destruct cont as [c|]; [|discriminate].
    destruct (for_each _ _ _) as [[[a k] log1]|]; simpl; [|discriminate].
    intros [= <- _]. by repeat split.
  - intros [= <- _]. by repeat split.
Qed.

(** X9. A view in ALL mode without container, such as the one of the
    default constructor, cannot be asked for its size: [GetEntries()],
    [end()], [rbegin()], [operator[]] at an index that is not negative and
    both loops fault, while [operator[]] at a negative index gives
    [NULL]. *)
Theorem null_container_faults v :
  fkContainer v = None → fUseAccepted v = false →
  GetEntries v = Fault ∧ end_ v = Fault ∧ rbegin v = Fault ∧
  (∀ i, 0 ≤ i → operator_subscript v i = Fault) ∧
  (∀ i, i < 0 → operator_subscript v i = Ok None) ∧
  ∀ fuel, iterate_forward fuel v = Some Fault ∧
          iterate_backward fuel v = Some Fault.
Proof.
  intros Hc Hmode.
  assert (GetEntries v = Fault) as Hn
    by (unfold GetEntries; by rewrite Hmode, Hc).
  unfold iterate_forward, iterate_backward, end_, rbegin, operator_subscript.
  rewrite Hn. simpl. repeat split.
  - intros i Hi. by destruct (Z.ltb_spec i 0); [lia|].
  - intros i Hi. by destruct (Z.ltb_spec i 0); [|lia].
Qed.

End Storage.

Section Steps.

Context {T : Type}.
Implicit Types (v : AliEmcalIterableContainerT T) (it : iterator T).

(** ** Repeated steps *)




(** [k] steps of [operator++] on a forward iterator, and on a backward one,
    as long as the position stays an [int]. *)
Lemma iter_operator_inc data (p : Z) (k : nat) :
  (INT_MIN ≤ p → p + Z.of_nat k ≤ INT_MAX →
   Nat.iter k operator_inc (MkIterator (T:=T) data p true)
   = MkIterator data (p + Z.of_nat k) true) ∧
  (p ≤ INT_MAX → INT_MIN ≤ p - Z.of_nat k →
   Nat.iter k operator_inc (MkIterator (T:=T) data p false)
   = MkIterator data (p - Z.of_nat k) false).
Proof.
  induction k as [|k [IHf IHb]].
  - simpl. split; intros _ _; f_equal; lia.
  - split; intros Hlo Hhi; simpl.
    + rewrite IHf by lia. unfold operator_inc. simpl.
      rewrite wrap_int_id by (unfold int_range; lia). f_equal. lia.
    + rewrite IHb by lia. unfold operator_inc. simpl.
      rewrite wrap_int_id by (unfold int_range; lia). f_equal. lia.
Qed.

(** X10. For a view with [n] entries, [n] between 0 and [INT_MAX],
    [operator++] applied [n] times to [begin()] gives [end()], and applied
    [n] times to [rbegin()] gives [rend()]: the sentinels are exactly
    [GetEntries()] steps away in both directions. *)
Theorem begin_steps_to_end v n :
  GetEntries v = Ok n → 0 ≤ n ≤ INT_MAX →
  end_ v = Ok (Nat.iter (Z.to_nat n) operator_inc (begin_ v)) ∧
  ∃ first, rbegin v = Ok first ∧
           Nat.iter (Z.to_nat n) operator_inc first = rend v.
Proof.
  intros Hn Hrange. unfold end_, rbegin, begin_, rend. rewrite Hn. simpl.
  unfold INT_MAX in Hrange.
  destruct (iter_operator_inc (Some v) 0 (Z.to_nat n)) as [Hf _].
  destruct (iter_operator_inc (Some v) (n - 1) (Z.to_nat n)) as [_ Hb].
  split.
  - rewrite Hf by (unfold INT_MIN, INT_MAX; lia). do 2 f_equal. lia.
  - eexists. split; [reflexivity|].
    rewrite wrap_int_id by (unfold int_range, INT_MIN, INT_MAX; lia).
    rewrite Hb by (unfold INT_MIN, INT_MAX; lia). f_equal. lia.
Qed.


(** X12. In a view with [n] entries bound to a container, the loop started
    at a position [k] of [[0, n]] and run up to [end()] meets the objects at
    the logical indices [k], ..., [n - 1], and the backward loop started
    just below [k] and run down to [rend()] meets those at [k - 1], ..., 0:
    the two loops share the objects of the view between them. *)
Theorem iterate_from_position v n k fuel :
  view_ok v n → 0 ≤ k ≤ n → (Z.to_nat n < fuel)%nat →
  ∃ last before after,
    end_ v = Ok last ∧
    Forall2 (λ i obj, operator_subscript v i = Ok obj) (seqZ 0 k) before ∧
    Forall2 (λ i obj, operator_subscript v i = Ok obj)
      (seqZ k (n - k)) after ∧
    iterate fuel (MkIterator (Some v) k true) last = Some (Ok after) ∧
    iterate fuel (MkIterator (Some v) (k - 1) false) (rend v)
    = Some (Ok (reverse before)).
Proof.
  intros Hv Hk Hfuel. pose proof Hv as (Hc & Hn & Hrange).
  exists (MkIterator (Some v) n true), (object_at v <$> seqZ 0 k),
         (object_at v <$> seqZ k (n - k)).
  split; [unfold end_; by rewrite Hn|].
  split.
  { apply Forall2_fmap_r, Forall_Forall2_diag, Forall_seqZ.
    intros i Hi. apply (operator_subscript_object_at v n); [done|lia]. }
  split.
  { apply Forall2_fmap_r, Forall_Forall2_diag, Forall_seqZ.
    intros i Hi. apply (operator_subscript_object_at v n); [done|lia]. }
  pose proof (iterate_forward_from v n (Z.to_nat (n - k)) k fuel Hv) as Hfwd.
  pose proof (iterate_backward_from v n (Z.to_nat k) fuel Hv) as Hbwd.
  rewrite Z2Nat.id in Hfwd, Hbwd by lia.
  split; [apply Hfwd; lia|apply Hbwd; lia].
Qed.

End Steps.

(** ** The further properties at concrete containers *)

Lemma iterate_accepted_objects_witness :
  container_ok (five 3) ∧ GetNAcceptEntries (five 3) = NAccepted (five 3) ∧
  ∃ v, ctor (Some (five 3)) true = Ok (v, []) ∧
       iterate_forward 4 v = Some (Ok [Some 101; Some 103; Some 104]) ∧
       iterate_backward 4 v = Some (Ok [Some 104; Some 103; Some 101]).
Proof.
  assert (container_ok (five 3)) as Hok
    by (unfold container_ok, int_range, INT_MIN, INT_MAX; simpl; lia).
  split; [exact Hok|]. split; [reflexivity|].
  apply (iterate_accepted_objects (five 3) 4 Hok eq_refl).
  vm_compute. lia.
Defined.

Lemma iterate_all_objects_witness :
  ∃ v, ctor (Some (five 3)) false = Ok (v, []) ∧
       iterate_forward 6 v
       = Some (Ok [Some 100; Some 101; Some 102; Some 103; Some 104]) ∧
       iterate_backward 6 v
       = Some (Ok [Some 104; Some 103; Some 102; Some 101; Some 100]).
Proof.
  apply (iterate_all_objects (five 3) 6).
  - unfold INT_MAX. simpl. lia.
  - simpl. lia.
Defined.

Lemma accepted_sublist_of_all_witness :
  ∃ va vall objs_a objs_all na nall,
    ctor (Some (five 3)) true = Ok (va, []) ∧
    ctor (Some (five 3)) false = Ok (vall, []) ∧
    iterate_forward 6 va = Some (Ok objs_a) ∧
    iterate_forward 6 vall = Some (Ok objs_all) ∧
    objs_a `sublist_of` objs_all ∧
    GetEntries va = Ok na ∧ GetEntries vall = Ok nall ∧ na ≤ nall.
Proof.
  apply (accepted_sublist_of_all (five 3) 6).
  - unfold container_ok, int_range, INT_MIN, INT_MAX. simpl. lia.
  - simpl. lia.
  - reflexivity.
  - simpl. lia.
Defined.

Lemma operator_subscript_rank_witness :
  accepted (five 3) 3 = true ∧
  ∃ v, ctor (Some (five 3)) true = Ok (v, []) ∧
       operator_subscript v 1 = Ok (Some 103).
Proof.
  split; [reflexivity|].
  apply (operator_subscript_rank (five 3) 3).
  - unfold container_ok, int_range, INT_MIN, INT_MAX. simpl. lia.
  - reflexivity.
  - simpl. lia.
  - reflexivity.
Defined.

Lemma operator_subscript_over_report_witness :
  NAccepted (five 5) ≤ 4 < GetNAcceptEntries (five 5) ∧
  ∃ v, ctor (Some (five 5)) true = Ok (v, []) ∧
       GetEntries v = Ok 5 ∧
       operator_subscript v 4 = Ok (Some 100).
Proof.
  assert (NAccepted (five 5) ≤ 4 < GetNAcceptEntries (five 5)) as Hi
    by (vm_compute; split; [discriminate|reflexivity]).
  split; [exact Hi|].
  apply (operator_subscript_over_report (five 5) 4); [|exact Hi].
  unfold container_ok, int_range, INT_MIN, INT_MAX. simpl. lia.
Defined.

Lemma BuildAcceptIndices_under_report_witness :
  0 < GetNAcceptEntries (five 2) < NAccepted (five 2) ∧
  last (accepted_positions (five 2)) = Some 4 ∧
  ∃ v, ctor (Some (five 2)) true = Ok (v, [TArrayI.Report 2 2]) ∧
       GetEntries v = Ok 2 ∧
       TArrayI.fArray (fAcceptIndices v) = [4; 3].
Proof.
  assert (0 < GetNAcceptEntries (five 2) < NAccepted (five 2)) as Hrep
    by (vm_compute; split; reflexivity).
  split; [exact Hrep|]. split; [reflexivity|].
  apply (BuildAcceptIndices_under_report (five 2) 4); [|exact Hrep|].
  - unfold container_ok, int_range, INT_MIN, INT_MAX. simpl. lia.
  - reflexivity.
Defined.

Lemma ctor_faults_without_storage_witness :
  accepted (five 0) 1 = true ∧ ctor (Some (five 0)) true = Fault.
Proof.
  split; [reflexivity|].
  apply (ctor_faults_without_storage (five 0) 1).
  - simpl. lia.
  - simpl. lia.
  - reflexivity.
Defined.

Lemma ctor_keeps_arguments_witness :
  ctor (Some (five 3)) false = Ok (five_all, []) ∧
  GetContainer five_all = Some (five 3) ∧ fUseAccepted five_all = false ∧
  GetContainer five_accepted = Some (five 3) ∧
  fUseAccepted five_accepted = true ∧ is_Some (Some (five 3)).
Proof.
  destruct (ctor_keeps_arguments (Some (five 3)) false) as [Hall Hkeep].
  destruct (Hkeep five_all [] eq_refl) as (Hc & Hm & _).
  destruct (ctor_keeps_arguments (Some (five 3)) true) as [_ Hkeep'].
  destruct (Hkeep' five_accepted [] eq_refl) as (Hc' & Hm' & Hsome).
  split; [exact (Hall eq_refl)|]. split; [exact Hc|]. split; [exact Hm|].
  split; [exact Hc'|]. split; [exact Hm'|exact (Hsome eq_refl)].
Defined.

Lemma null_container_faults_witness :
  GetEntries (ctor_default (T:=Z)) = Fault ∧
  end_ (ctor_default (T:=Z)) = Fault ∧
  rbegin (ctor_default (T:=Z)) = Fault ∧
  operator_subscript (ctor_default (T:=Z)) 0 = Fault ∧
  operator_subscript (ctor_default (T:=Z)) (-1) = Ok None ∧
  iterate_forward 1 (ctor_default (T:=Z)) = Some Fault.
Proof.
  destruct (null_container_faults (ctor_default (T:=Z)) eq_refl eq_refl)
    as (Hn & He & Hr & Hpos & Hneg & Hloops).
  split; [exact Hn|]. split; [exact He|]. split; [exact Hr|].
  split; [apply Hpos; lia|]. split; [apply Hneg; lia|].
  apply (Hloops 1%nat).
Defined.

Lemma begin_steps_to_end_witness :
  end_ five_accepted
  = Ok (operator_inc (operator_inc (operator_inc (begin_ five_accepted)))) ∧
  ∃ first, rbegin five_accepted = Ok first ∧
           operator_inc (operator_inc (operator_inc first))
           = rend five_accepted.
Proof.
  apply (begin_steps_to_end five_accepted 3); [reflexivity|].
  unfold INT_MAX. lia.
Defined.


Lemma iterate_from_position_witness :
  view_ok five_accepted 3 ∧
  ∃ last before after,
    end_ five_accepted = Ok last ∧
    Forall2 (λ i obj, operator_subscript five_accepted i = Ok obj)
      (seqZ 0 1) before ∧
    Forall2 (λ i obj, operator_subscript five_accepted i = Ok obj)
      (seqZ 1 (3 - 1)) after ∧
    iterate 4 (MkIterator (Some five_accepted) 1 true) last
    = Some (Ok after) ∧
    iterate 4 (MkIterator (Some five_accepted) (1 - 1) false)
      (rend five_accepted)
    = Some (Ok (reverse before)).
Proof.
  assert (view_ok five_accepted 3) as Hok.
  { split; [by eexists|]. split; [reflexivity|]. unfold INT_MAX. lia. }
  split; [exact Hok|].
  apply (iterate_from_position five_accepted 3 1 4 Hok); [lia|].
  simpl. lia.
Defined.
